(** * leetrack frontend: the route table and the HTTP client wrapper

    A shallow embedding of the two source files of the frontend,

    - [src/frontend/src/App.jsx]: the route table of the application, and
    - [src/frontend/src/api/apiClient.js]: the axios instance with its
      request interceptor, which copies the access token found in
      [localStorage] into the [Authorization] header of a request,

    followed by the properties the specification states about them. *)

From stdpp Require Import gmap strings list fin_maps.

Open Scope string_scope.

(** ** JavaScript values *)

(** The values a header or a request option can hold, and the values that
    can be thrown or passed as a rejection reason. Numbers are restricted to
    the integral ones. *)
#[warnings="-register-all"]
Inductive JsValue : Type :=
| JsUndefined
| JsNull
| JsBool (b : bool)
| JsNumber (n : Z)
| JsString (s : string)
| JsArray (items : list JsValue)
| JsObject (fields : list (string * JsValue)).

(** ** Web Storage *)

Module Storage.

(** [localStorage] holds strings under string keys. *)
Abbreviation t := (gmap string string).

(** [localStorage.getItem(key)]: the stored string, or [null] ([None])
    when the key is not there. *)
Definition getItem (st : t) (key : string) : option string := st !! key.

(** [localStorage.setItem(key, value)]. *)
Definition setItem (st : t) (key value : string) : t := <[key := value]> st.

End Storage.

(** [ToBoolean] on a value of type [string | null], as the condition of an
    [if] applies it: [null] and the empty string are falsy, every other
    string is truthy. *)
Definition ToBoolean (v : option string) : bool :=
  match v with
  | None => false
  | Some "" => false
  | Some (String _ _) => true
  end.

(** [ToString] on a value of type [string | null], as a template literal
    applies it to a substitution. *)
Definition ToString (v : option string) : string :=
  match v with
  | None => "null"
  | Some s => s
  end.

(** ** Promises *)

(** The interceptor chain only sees settled promises: the storage read is
    synchronous and no handler suspends. *)
Inductive Promise (A : Type) : Type :=
| Fulfilled (value : A)
| Rejected (reason : JsValue).

Arguments Fulfilled {A} value.
Arguments Rejected {A} reason.

(** [Promise.resolve(value)] for a value that is not a thenable. *)
Definition Promise_resolve {A : Type} (value : A) : Promise A := Fulfilled value.

(** [Promise.reject(reason)]: the reason is not unwrapped or converted. *)
Definition Promise_reject {A : Type} (reason : JsValue) : Promise A := Rejected reason.

(** [p.then(onFulfilled, onRejected)] on a settled promise, with handlers
    that return a promise. *)
Definition Promise_then {A B : Type} (p : Promise A)
    (onFulfilled : A → Promise B) (onRejected : JsValue → Promise B) : Promise B :=
  match p with
  | Fulfilled value => onFulfilled value
  | Rejected reason => onRejected reason
  end.

(** ** Request configs *)

(** A request config as axios hands it to a request interceptor. The
    [headers] object is always there at that point, so it is a field of its
    own; [extra] holds every option that has no field here ([timeout],
    [params], ...). An option that is [undefined] is [None]. *)
Record RequestConfig : Type := mkRequestConfig {
  url : option string;
  method : option string;
  baseURL : option string;
  headers : gmap string JsValue;
  data : option JsValue;
  extra : gmap string JsValue
}.

(** [config.headers[name] = value; config]. The assignment creates the
    property or overwrites it. *)
Definition set_header (name : string) (value : JsValue) (config : RequestConfig)
    : RequestConfig :=
  {| url := url config;
     method := method config;
     baseURL := baseURL config;
     headers := <[name := value]> (headers config);
     data := data config;
     extra := extra config |}.

(** ** [apiClient.js]: the request interceptor *)

(** The first argument of [apiClient.interceptors.request.use]:
<<
    (config) => {
      const token = localStorage.getItem("accessToken");
      if (token) {
        config.headers["Authorization"] = `Bearer ${token}`;
      }
      return config;
    }
>>
    [localStorage] is ambient in the source and an argument here. *)
Definition onFulfilled (localStorage : Storage.t) (config : RequestConfig)
    : RequestConfig :=
  let token := Storage.getItem localStorage "accessToken" in
  if ToBoolean token
  then set_header "Authorization" (JsString ("Bearer " +:+ ToString token)) config
  else config.

(** The second argument of [apiClient.interceptors.request.use]:
<<
    (error) => {
      return Promise.reject(error);
    }
>> *)
Definition onRejected (error : JsValue) : Promise RequestConfig :=
  Promise_reject error.

(** ** The part of axios the client relies on *)

Module Axios.

(** Modelled from the spec: a pair of handlers registered with
    [interceptors.request.use]; the interceptor manager belongs to the
    axios library, which is not among the sources. A handler reads the
    ambient [localStorage], so the fulfilment handler takes it as an
    argument. *)
Record Interceptor : Type := mkInterceptor {
  fulfilled : Storage.t → RequestConfig → RequestConfig;
  rejected : JsValue → Promise RequestConfig
}.

(** Modelled from the spec: an axios instance, of the axios library, as
    far as the client uses it: the defaults it was created with and the
    request interceptors registered so far, oldest first. *)
Record Instance : Type := mkInstance {
  defaults : RequestConfig;
  request_interceptors : list Interceptor
}.

(** Modelled from the spec: [axios.create(config)], of the axios library:
    a client factory that configures a base URL and default headers. The
    defaults of the library itself are left out. *)
Definition create (config : RequestConfig) : Instance :=
  {| defaults := config; request_interceptors := [] |}.

(** Modelled from the spec: [instance.interceptors.request.use(f, r)], of
    the axios library. *)
Definition use (inst : Instance) (f : Storage.t → RequestConfig → RequestConfig)
    (r : JsValue → Promise RequestConfig) : Instance :=
  {| defaults := defaults inst;
     request_interceptors :=
       request_interceptors inst ++ [ {| fulfilled := f; rejected := r |} ] |}.

(** Modelled from the spec: the request interceptor chain of the axios
    library: one [then] per interceptor, in the order of the chain. *)
Fixpoint run_interceptors (localStorage : Storage.t) (chain : list Interceptor)
    (p : Promise RequestConfig) : Promise RequestConfig :=
  match chain with
  | [] => p
  | i :: rest =>
      run_interceptors localStorage rest
        (Promise_then p
           (λ config, Promise_resolve (fulfilled i localStorage config))
           (rejected i))
  end.







End Axios.

(** ** [apiClient.js]: the client instance *)

(** [import.meta.env.VITE_API_BASE_URL]; the environment [env] is
    [import.meta.env], and a variable that is not set reads as
    [undefined]. *)
Definition API_BASE_URL (env : gmap string string) : option string :=
  env !! "VITE_API_BASE_URL".

(** The argument of [axios.create]:
<<
    { baseURL: API_BASE_URL, headers: { "Content-Type": "application/json" } }
>> *)
Definition create_config (env : gmap string string) : RequestConfig :=
  {| url := None;
     method := None;
     baseURL := API_BASE_URL env;
     headers := {[ "Content-Type" := JsString "application/json" ]};
     data := None;
     extra := ∅ |}.

(** The exported instance: [axios.create] followed by the registration of
    the interceptor. *)
Definition apiClient (env : gmap string string) : Axios.Instance :=
  Axios.use (Axios.create (create_config env)) onFulfilled onRejected.

(** ** [App.jsx]: the route table *)

(** A JSX attribute is a string literal or an expression in braces, which
    in [App.jsx] is always an element. *)
Inductive JsxAttr (N : Type) : Type :=
| AttrString (s : string)
| AttrExpr (node : N).

Arguments AttrString {N} s.
Arguments AttrExpr {N} node.

#[warnings="-register-all"]
Inductive JsxNode : Type :=
| JsxText (s : string)
| JsxElement (type : string) (props : list (string * JsxAttr JsxNode))
    (children : list JsxNode).

(** [<h1>text</h1>]. *)
Definition h1 (text : string) : JsxNode := JsxElement "h1" [] [JsxText text].

(** [<Route path=... element={...} />]. *)
Definition Route (path : string) (element : JsxNode) : JsxNode :=
  JsxElement "Route" [("path", AttrString path); ("element", AttrExpr element)] [].

(** [<Routes>...</Routes>]. *)
Definition Routes (children : list JsxNode) : JsxNode :=
  JsxElement "Routes" [] children.

(** The component: what [App()] returns. The comment in braces is not a
    child. *)
Definition App : JsxNode :=
  Routes
    [ Route "/login" (h1 "Login Page");
      Route "/" (h1 "Dashboard Page");
      Route "/settings" (h1 "Settings Page") ].

(** The value of an attribute of an element. *)
Fixpoint attr {N : Type} (name : string) (props : list (string * JsxAttr N))
    : option (JsxAttr N) :=
  match props with
  | [] => None
  | (n, v) :: rest => if String.eqb n name then Some v else attr name rest
  end.

(** The route a [<Route>] element declares: its path and its element. *)
Definition route_of (node : JsxNode) : option (string * JsxNode) :=
  match node with
  | JsxElement "Route" props _ =>
      match attr "path" props, attr "element" props with
      | Some (AttrString path), Some (AttrExpr element) => Some (path, element)
      | _, _ => None
      end
  | _ => None
  end.

(** The routes a [<Routes>] element declares, in order. *)
Definition declared_routes (node : JsxNode) : list (string * JsxNode) :=
  match node with
  | JsxElement "Routes" _ children => omap route_of children
  | _ => []
  end.

(** The text of a heading: of an [<h1>] whose only child is a text. *)
Definition heading_text (node : JsxNode) : option string :=
  match node with
  | JsxElement "h1" _ [JsxText text] => Some text
  | _ => None
  end.

(** The headings of the route table, by path. *)
Definition route_headings (node : JsxNode) : list (string * option string) :=
  (λ r, (r.1, heading_text r.2)) <$> declared_routes node.

(** ** The success handler on the heap *)

(** The success handler assigns to a property of an object its argument
    refers to and returns its argument: the config and its [headers] are
    objects the caller holds too. Here objects live in a heap, a config is
    the address of its object, and the assignment is the strict-mode one of
    module code. *)

(** What a property holds: a reference to an object of the heap, or a value
    the handler cannot assign a property to (a primitive, or a frozen value). *)
Inductive HeapValue : Type :=
| Prim (value : JsValue)
| Ref (address : nat).

(** How an evaluation ends: with a value, or with a thrown error. *)
Inductive Completion (A : Type) : Type :=
| Normal (value : A)
| Throw (error : JsValue).

Arguments Normal {A} value.
Arguments Throw {A} error.

(** A [TypeError]; its message depends on the engine and is left out. *)
Definition TypeError : JsValue := JsObject [("name", JsString "TypeError")].

(** [object.name] for an object of the heap; [None] is [undefined]. *)
Definition get_property (heap : gmap nat (gmap string HeapValue)) (object : nat)
    (name : string) : option HeapValue :=
  heap !! object ≫= (λ properties, properties !! name).

(** [target[name] = value] in strict mode, for [target] the outcome of a
    property read: the property is created or overwritten in place when
    [target] is an object, and a [TypeError] is thrown when it is
    [undefined], [null] or any other value that takes no property. A
    reference to no object of the heap does not arise in a run and is
    treated alike. *)
Definition put_property (heap : gmap nat (gmap string HeapValue))
    (target : option HeapValue) (name : string) (value : HeapValue)
    : Completion (gmap nat (gmap string HeapValue)) :=
  match target with
  | Some (Ref address) =>
      match heap !! address with
      | Some properties => Normal (<[address := <[name := value]> properties]> heap)
      | None => Throw TypeError
      end
  | _ => Throw TypeError
  end.

(** The first argument of [apiClient.interceptors.request.use], on the
    heap: the outcome is the heap after the call with the reference
    returned, or the error thrown. *)
Definition onFulfilled_heap (localStorage : Storage.t)
    (heap : gmap nat (gmap string HeapValue)) (config : nat)
    : Completion (gmap nat (gmap string HeapValue) * nat) :=
  let token := Storage.getItem localStorage "accessToken" in
  if ToBoolean token
  then
    match put_property heap (get_property heap config "headers") "Authorization"
            (Prim (JsString ("Bearer " +:+ ToString token)))
    with
    | Normal heap' => Normal (heap', config)
    | Throw error => Throw error
    end
  else Normal (heap, config).

(** The [headers] object of a config of the heap, when it has one. *)
Definition headers_of (heap : gmap nat (gmap string HeapValue)) (config : nat)
    : option (gmap string HeapValue) :=
  match get_property heap config "headers" with
  | Some (Ref address) => heap !! address
  | _ => None
  end.

(** The handler with the read of the ambient [localStorage] made explicit:
    evaluating [localStorage] gives the storage, or throws, a
    [ReferenceError] where no [localStorage] is defined and a
    [SecurityError] where the browser denies access to it. The read is the
    first thing the handler does, so its error is the outcome and the heap
    is not touched. *)
Definition onFulfilled_ambient (localStorage : Completion Storage.t)
    (heap : gmap nat (gmap string HeapValue)) (config : nat)
    : Completion (gmap nat (gmap string HeapValue) * nat) :=
  match localStorage with
  | Throw error => Throw error
  | Normal storage => onFulfilled_heap storage heap config
  end.

(** ** Sample inputs *)

(** [apiClient.get("/problems", { headers: { Accept: "application/json" } })],
    as the interceptor receives it. *)
Definition get_problems : RequestConfig :=
  {| url := Some "/problems";
     method := Some "get";
     baseURL := Some "http://localhost:8000/api";
     headers := {[ "Accept" := JsString "application/json" ]};
     data := None;
     extra := {[ "timeout" := JsNumber 5000 ]} |}.

(** A request whose caller set an [Authorization] header of its own. *)
Definition get_with_basic_auth : RequestConfig :=
  set_header "Authorization" (JsString "Basic dXNlcjpwdw==") get_problems.

(** A heap with two configs, at 1 and 3, that share the [headers] object at
    2, and a config at 4 that has no [headers]. *)
Definition shared_headers_heap : gmap nat (gmap string HeapValue) :=
  {[ 1 := {[ "url" := Prim (JsString "/problems"); "headers" := Ref 2 ]};
     2 := {[ "Accept" := Prim (JsString "application/json") ]};
     3 := {[ "url" := Prim (JsString "/stats"); "headers" := Ref 2 ]};
     4 := {[ "url" := Prim (JsString "/health") ]} ]}.




(** * Properties *)

(** ** The success handler of the interceptor *)

Section RequestInterceptor.

Context (localStorage : Storage.t) (config : RequestConfig).

(** The truthy branch: a stored token that is not the empty string. *)
Lemma onFulfilled_truthy (token : string) :
  Storage.getItem localStorage "accessToken" = Some token →
  token ≠ "" →
  onFulfilled localStorage config
  = set_header "Authorization" (JsString ("Bearer " +:+ token)) config.
Proof.
  intros Hget Hne. unfold onFulfilled. rewrite Hget.
  destruct token as [|a token']; [congruence | reflexivity].
Qed.

(** The falsy branch: the handler returns its argument. *)
Lemma onFulfilled_falsy :
  ToBoolean (Storage.getItem localStorage "accessToken") = false →
  onFulfilled localStorage config = config.
Proof. intros Hfalsy. unfold onFulfilled. by rewrite Hfalsy. Qed.

(** Whatever is stored, the handler returns its argument or its argument
    with the [Authorization] header set. *)
Lemma onFulfilled_cases :
  onFulfilled localStorage config = config
  ∨ ∃ value, onFulfilled localStorage config = set_header "Authorization" value config.
Proof.
  unfold onFulfilled.
  destruct (ToBoolean _); [right; eauto | by left].
Qed.

End RequestInterceptor.

(** [set_header] leaves every field but [headers] alone, and in [headers]
    every name but the one it sets. *)
Lemma set_header_frame (name : string) (value : JsValue) (config : RequestConfig) :
  url (set_header name value config) = url config
  ∧ method (set_header name value config) = method config
  ∧ baseURL (set_header name value config) = baseURL config
  ∧ data (set_header name value config) = data config
  ∧ extra (set_header name value config) = extra config
  ∧ ∀ other, other ≠ name →
      headers (set_header name value config) !! other = headers config !! other.
Proof.
  repeat split. intros other Hne. simpl. by rewrite lookup_insert_ne.
Qed.

(** The frame of the handler, for any storage. *)
Lemma onFulfilled_frame (localStorage : Storage.t) (config : RequestConfig) :
  url (onFulfilled localStorage config) = url config
  ∧ method (onFulfilled localStorage config) = method config
  ∧ baseURL (onFulfilled localStorage config) = baseURL config
  ∧ data (onFulfilled localStorage config) = data config
  ∧ extra (onFulfilled localStorage config) = extra config
  ∧ ∀ name, name ≠ "Authorization" →
      headers (onFulfilled localStorage config) !! name = headers config !! name.
Proof.
  destruct (onFulfilled_cases localStorage config) as [-> | [value ->]].
  - done.
  - apply set_header_frame.
Qed.

(** C1 (as stated, refuted): with the empty string stored under
    ["accessToken"], a string is stored under the key and yet the returned
    config of [get_problems] has no [Authorization] header, so the header is
    not ["Bearer "] followed by the stored value. *)
Lemma onFulfilled_empty_token_no_bearer :
  Storage.getItem {[ "accessToken" := "" ]} "accessToken" = Some ""
  ∧ headers (onFulfilled {[ "accessToken" := "" ]} get_problems) !! "Authorization"
    = None
  ∧ headers (onFulfilled {[ "accessToken" := "" ]} get_problems) !! "Authorization"
    ≠ Some (JsString ("Bearer " +:+ "")).
Proof.
  assert (Hnone : headers (onFulfilled {[ "accessToken" := "" ]} get_problems)
                    !! "Authorization" = None) by (vm_compute; reflexivity).
  split; [vm_compute; reflexivity |]. split; [exact Hnone |].
  rewrite Hnone. discriminate.
Qed.

(** C1 (amended): for every request config and every storage state in which
    a token string other than the empty string is stored under
    ["accessToken"], the returned config has the [Authorization] header
    ["Bearer "] followed by the stored token. *)
Theorem onFulfilled_sets_bearer
    (localStorage : Storage.t) (config : RequestConfig) (token : string) :
  Storage.getItem localStorage "accessToken" = Some token →
  token ≠ "" →
  headers (onFulfilled localStorage config) !! "Authorization"
  = Some (JsString ("Bearer " +:+ token)).
Proof.
  intros Hget Hne. rewrite (onFulfilled_truthy _ _ token Hget Hne).
  simpl. apply lookup_insert_eq.
Qed.

Lemma onFulfilled_sets_bearer_witness :
  headers (onFulfilled {[ "accessToken" := "eyJhbGciOi" ]} get_problems)
    !! "Authorization"
  = Some (JsString "Bearer eyJhbGciOi").
Proof.
  apply (onFulfilled_sets_bearer {[ "accessToken" := "eyJhbGciOi" ]}
           get_problems "eyJhbGciOi").
  - vm_compute; reflexivity.
  - discriminate.
Defined.

(** C2 (as stated, refuted): with nothing stored, the config of a request
    that came with an [Authorization] header of its own is returned with
    that header, not without one. *)
Lemma onFulfilled_no_token_header_present :
  Storage.getItem ∅ "accessToken" = None
  ∧ headers (onFulfilled ∅ get_with_basic_auth) !! "Authorization"
    = Some (JsString "Basic dXNlcjpwdw==").
Proof. split; vm_compute; reflexivity. Qed.

(** C2 (amended): for every request config, if no token is stored under
    ["accessToken"], the handler returns the config it was given: the
    [Authorization] header is absent whenever the input had none, and every
    field, every header included, is that of the input. *)
Theorem onFulfilled_no_token_unmodified
    (localStorage : Storage.t) (config : RequestConfig) :
  Storage.getItem localStorage "accessToken" = None →
  onFulfilled localStorage config = config
  ∧ (headers config !! "Authorization" = None →
     headers (onFulfilled localStorage config) !! "Authorization" = None)
  ∧ url (onFulfilled localStorage config) = url config
  ∧ method (onFulfilled localStorage config) = method config
  ∧ baseURL (onFulfilled localStorage config) = baseURL config
  ∧ data (onFulfilled localStorage config) = data config
  ∧ extra (onFulfilled localStorage config) = extra config
  ∧ headers (onFulfilled localStorage config) = headers config.
Proof.
  intros Hget.
  assert (Hid : onFulfilled localStorage config = config).
  { apply onFulfilled_falsy. by rewrite Hget. }
  rewrite Hid. repeat split; auto.
Qed.

Lemma onFulfilled_no_token_unmodified_witness :
  onFulfilled {[ "theme" := "dark" ]} get_problems = get_problems
  ∧ headers (onFulfilled {[ "theme" := "dark" ]} get_problems) !! "Authorization"
    = None.
Proof.
  pose proof (onFulfilled_no_token_unmodified {[ "theme" := "dark" ]} get_problems)
    as H.
  destruct H as (Hid & Habsent & _); [vm_compute; reflexivity |].
  split; [exact Hid | apply Habsent; vm_compute; reflexivity].
Defined.

(** C4: for every request config and every storage state in which a token
    string is stored under ["accessToken"], the handler changes at most the
    [Authorization] header: every other field of the returned config, and
    every other header, is that of the input config. *)
Theorem onFulfilled_changes_only_authorization
    (localStorage : Storage.t) (config : RequestConfig) (token : string) :
  Storage.getItem localStorage "accessToken" = Some token →
  url (onFulfilled localStorage config) = url config
  ∧ method (onFulfilled localStorage config) = method config
  ∧ baseURL (onFulfilled localStorage config) = baseURL config
  ∧ data (onFulfilled localStorage config) = data config
  ∧ extra (onFulfilled localStorage config) = extra config
  ∧ (∀ name, name ≠ "Authorization" →
       headers (onFulfilled localStorage config) !! name = headers config !! name)
  ∧ delete "Authorization" (headers (onFulfilled localStorage config))
    = delete "Authorization" (headers config).
Proof.
  intros _.
  destruct (onFulfilled_frame localStorage config)
    as (Hurl & Hmethod & Hbase & Hdata & Hextra & Hheaders).
  repeat split; try assumption.
  apply map_eq. intros name.
  destruct (decide (name = "Authorization")) as [-> | Hne].
  - by rewrite !lookup_delete_eq.
  - rewrite !lookup_delete_ne by done. by apply Hheaders.
Qed.

Lemma onFulfilled_changes_only_authorization_witness :
  url (onFulfilled {[ "accessToken" := "t0k3n" ]} get_with_basic_auth)
  = Some "/problems"
  ∧ headers (onFulfilled {[ "accessToken" := "t0k3n" ]} get_with_basic_auth)
      !! "Accept"
    = Some (JsString "application/json").
Proof.
  destruct (onFulfilled_changes_only_authorization
              {[ "accessToken" := "t0k3n" ]} get_with_basic_auth "t0k3n")
    as (Hurl & _ & _ & _ & _ & Hheaders & _); [vm_compute; reflexivity |].
  split; [exact Hurl |].
  rewrite Hheaders by discriminate. vm_compute; reflexivity.
Defined.

(** C7: the handler is a function of the config and of what is stored under
    ["accessToken"]: two runs with equal configs, in storages that agree on
    that key, return equal configs. *)
Theorem onFulfilled_deterministic
    (storage1 storage2 : Storage.t) (config1 config2 : RequestConfig) :
  config1 = config2 →
  Storage.getItem storage1 "accessToken" = Storage.getItem storage2 "accessToken" →
  onFulfilled storage1 config1 = onFulfilled storage2 config2.
Proof.
  intros -> Hsame. unfold onFulfilled. by rewrite Hsame.
Qed.

Lemma onFulfilled_deterministic_witness :
  onFulfilled {[ "accessToken" := "t0k3n"; "theme" := "dark" ]} get_problems
  = onFulfilled {[ "accessToken" := "t0k3n" ]} get_problems.
Proof.
  apply onFulfilled_deterministic; [reflexivity | vm_compute; reflexivity].
Defined.

(** C8: if the value stored under ["accessToken"] is the empty string, the
    handler treats it as absent: the config is returned as it came, and no
    [Authorization] header is added to it. The test is truthiness. *)
Theorem onFulfilled_empty_token
    (localStorage : Storage.t) (config : RequestConfig) :
  Storage.getItem localStorage "accessToken" = Some "" →
  ToBoolean (Storage.getItem localStorage "accessToken") = false
  ∧ onFulfilled localStorage config = config
  ∧ headers (onFulfilled localStorage config) !! "Authorization"
    = headers config !! "Authorization".
Proof.
  intros Hget.
  assert (Hfalsy : ToBoolean (Storage.getItem localStorage "accessToken") = false)
    by (by rewrite Hget).
  split; [exact Hfalsy |].
  by rewrite (onFulfilled_falsy _ _ Hfalsy).
Qed.

Lemma onFulfilled_empty_token_witness :
  onFulfilled (Storage.setItem ∅ "accessToken" "") get_problems = get_problems
  ∧ headers (onFulfilled (Storage.setItem ∅ "accessToken" "") get_problems)
      !! "Authorization" = None.
Proof.
  destruct (onFulfilled_empty_token (Storage.setItem ∅ "accessToken" "") get_problems)
    as (_ & Hid & Hheader); [vm_compute; reflexivity |].
  split; [exact Hid |]. rewrite Hheader. vm_compute; reflexivity.
Defined.

(** C9 (as stated, refuted): with the empty string stored under
    ["accessToken"], a request that came with an [Authorization] header of
    its own keeps it: the header is not overwritten with ["Bearer "]
    followed by the stored value. *)
Lemma onFulfilled_empty_token_no_overwrite :
  headers get_with_basic_auth !! "Authorization"
  = Some (JsString "Basic dXNlcjpwdw==")
  ∧ Storage.getItem {[ "accessToken" := "" ]} "accessToken" = Some ""
  ∧ headers (onFulfilled {[ "accessToken" := "" ]} get_with_basic_auth)
      !! "Authorization"
    = Some (JsString "Basic dXNlcjpwdw==")
  ∧ headers (onFulfilled {[ "accessToken" := "" ]} get_with_basic_auth)
      !! "Authorization"
    ≠ Some (JsString ("Bearer " +:+ "")).
Proof.
  assert (Hkept : headers (onFulfilled {[ "accessToken" := "" ]} get_with_basic_auth)
                    !! "Authorization" = Some (JsString "Basic dXNlcjpwdw=="))
    by (vm_compute; reflexivity).
  repeat split; try (vm_compute; reflexivity).
  rewrite Hkept. discriminate.
Qed.

(** C9 (amended): if the input config already carries an [Authorization]
    header and a token other than the empty string is stored under
    ["accessToken"], the handler overwrites that header with ["Bearer "]
    followed by the stored token; and if no token is stored, an
    [Authorization] header of the input config is left in place. *)
Theorem onFulfilled_overwrites_or_keeps
    (localStorage : Storage.t) (config : RequestConfig) (previous : JsValue) :
  headers config !! "Authorization" = Some previous →
  (∀ token, Storage.getItem localStorage "accessToken" = Some token →
     token ≠ "" →
     headers (onFulfilled localStorage config) !! "Authorization"
     = Some (JsString ("Bearer " +:+ token))
     ∧ headers (onFulfilled localStorage config)
       = <["Authorization" := JsString ("Bearer " +:+ token)]> (headers config))
  ∧ (Storage.getItem localStorage "accessToken" = None →
     headers (onFulfilled localStorage config) !! "Authorization" = Some previous).
Proof.
  intros Hprev. split.
  - intros token Hget Hne.
    rewrite (onFulfilled_truthy _ _ token Hget Hne). simpl.
    split; [apply lookup_insert_eq | reflexivity].
  - intros Hget. rewrite onFulfilled_falsy; [exact Hprev | by rewrite Hget].
Qed.

Lemma onFulfilled_overwrites_or_keeps_witness :
  headers (onFulfilled {[ "accessToken" := "t0k3n" ]} get_with_basic_auth)
    !! "Authorization"
  = Some (JsString "Bearer t0k3n")
  ∧ headers (onFulfilled ∅ get_with_basic_auth) !! "Authorization"
    = Some (JsString "Basic dXNlcjpwdw==").
Proof.
  split.
  - destruct (onFulfilled_overwrites_or_keeps {[ "accessToken" := "t0k3n" ]}
                get_with_basic_auth (JsString "Basic dXNlcjpwdw=="))
      as [Hset _]; [vm_compute; reflexivity |].
    apply (Hset "t0k3n"); [vm_compute; reflexivity | discriminate].
  - destruct (onFulfilled_overwrites_or_keeps ∅
                get_with_basic_auth (JsString "Basic dXNlcjpwdw=="))
      as [_ Hkeep]; [vm_compute; reflexivity |].
    apply Hkeep. vm_compute; reflexivity.
Defined.


(** ** The error handler of the interceptor *)

(** C3: for every error value, the error handler returns a rejection that
    carries that same value; a rejected promise that goes through the
    interceptor, alone or in the chain of the client, comes out rejected
    with the reason it had: nothing is retried, recovered or reclassified. *)
Theorem onRejected_identity (error : JsValue) :
  onRejected error = Rejected error
  ∧ (∀ localStorage,
       Promise_then (Rejected error)
         (λ config, Promise_resolve (onFulfilled localStorage config))
         onRejected
       = Rejected error)
  ∧ (∀ env localStorage,
       Axios.run_interceptors localStorage
         (reverse (Axios.request_interceptors (apiClient env)))
         (Rejected error)
       = Rejected error).
Proof. repeat split. Qed.

(** ** The client instance *)











(** ** The route table *)

(** C6: the route table declares three routes and no other: ["/login"] with
    the heading "Login Page", ["/"] with the heading "Dashboard Page" and
    ["/settings"] with the heading "Settings Page", each element an [<h1>]
    placeholder. *)
Theorem App_route_table :
  App = Routes [ Route "/login" (h1 "Login Page");
                 Route "/" (h1 "Dashboard Page");
                 Route "/settings" (h1 "Settings Page") ]
  ∧ declared_routes App
    = [ ("/login", h1 "Login Page");
        ("/", h1 "Dashboard Page");
        ("/settings", h1 "Settings Page") ]
  ∧ route_headings App
    = [ ("/login", Some "Login Page");
        ("/", Some "Dashboard Page");
        ("/settings", Some "Settings Page") ]
  ∧ length (declared_routes App) = 3
  ∧ ∀ path element,
      (path, element) ∈ declared_routes App
      ↔ (path = "/login" ∧ element = h1 "Login Page")
        ∨ (path = "/" ∧ element = h1 "Dashboard Page")
        ∨ (path = "/settings" ∧ element = h1 "Settings Page").
Proof.
  assert (Hroutes : declared_routes App
                    = [ ("/login", h1 "Login Page");
                        ("/", h1 "Dashboard Page");
                        ("/settings", h1 "Settings Page") ]) by reflexivity.
  split; [reflexivity |]. split; [exact Hroutes |].
  split; [reflexivity |]. split; [reflexivity |].
  intros path element. rewrite Hroutes.
  rewrite !elem_of_cons, elem_of_nil. split.
  - intros [Heq | [Heq | [Heq | Hnil]]]; [| | | destruct Hnil];
      injection Heq as -> ->; tauto.
  - intros [[-> ->] | [[-> ->] | [-> ->]]]; tauto.
Qed.

(** * Further properties of the interceptor *)

(** ** Running the success handler more than once *)

(** Setting a header twice is setting it to the later value. *)
Lemma set_header_twice (name : string) (value1 value2 : JsValue)
    (config : RequestConfig) :
  set_header name value2 (set_header name value1 config)
  = set_header name value2 config.
Proof. unfold set_header; simpl. f_equal. apply insert_insert_eq. Qed.

(** Setting a header to the value it has changes nothing, and conversely. *)
Lemma set_header_fixed (name : string) (value : JsValue) (config : RequestConfig) :
  set_header name value config = config ↔ headers config !! name = Some value.
Proof.
  split.
  - intros Heq. rewrite <- Heq. simpl. apply lookup_insert_eq.
  - intros Hlookup. destruct config as [u m b h d e]. unfold set_header; simpl in *.
    f_equal. by apply insert_id.
Qed.

(** Two runs in a row, the second possibly in a later state of the storage:
    the second run decides when it finds a truthy token, and otherwise
    leaves what the first one did. *)
Lemma onFulfilled_compose (storage1 storage2 : Storage.t) (config : RequestConfig) :
  onFulfilled storage2 (onFulfilled storage1 config)
  = if ToBoolean (Storage.getItem storage2 "accessToken")
    then onFulfilled storage2 config
    else onFulfilled storage1 config.
Proof.
  unfold onFulfilled at 1 3.
  destruct (ToBoolean (Storage.getItem storage2 "accessToken")); [| reflexivity].
  destruct (onFulfilled_cases storage1 config) as [-> | [value ->]];
    [reflexivity | apply set_header_twice].
Qed.

(** X1: the success handler is idempotent: a config that went through it
    goes through it again unchanged, as when a request is retried with the
    config of the first attempt. *)
Theorem onFulfilled_idempotent (localStorage : Storage.t) (config : RequestConfig) :
  onFulfilled localStorage (onFulfilled localStorage config)
  = onFulfilled localStorage config.
Proof.
  rewrite onFulfilled_compose. by destruct (ToBoolean _).
Qed.

(** X2: a later run with a non-empty token replaces whatever an earlier run
    wrote: the result is that of the later run alone, so a refreshed token
    takes the place of the old one. *)
Theorem onFulfilled_later_token_wins
    (storage1 storage2 : Storage.t) (config : RequestConfig) (token : string) :
  Storage.getItem storage2 "accessToken" = Some token →
  token ≠ "" →
  onFulfilled storage2 (onFulfilled storage1 config) = onFulfilled storage2 config
  ∧ headers (onFulfilled storage2 (onFulfilled storage1 config)) !! "Authorization"
    = Some (JsString ("Bearer " +:+ token)).
Proof.
  intros Hget Hne.
  assert (Hwins : onFulfilled storage2 (onFulfilled storage1 config)
                  = onFulfilled storage2 config).
  { rewrite onFulfilled_compose, Hget. by destruct token. }
  split; [exact Hwins |].
  rewrite Hwins, (onFulfilled_truthy _ _ token Hget Hne). simpl.
  apply lookup_insert_eq.
Qed.

Lemma onFulfilled_later_token_wins_witness :
  headers (onFulfilled {[ "accessToken" := "new" ]}
             (onFulfilled {[ "accessToken" := "old" ]} get_problems))
    !! "Authorization"
  = Some (JsString "Bearer new").
Proof.
  apply (onFulfilled_later_token_wins {[ "accessToken" := "old" ]}
           {[ "accessToken" := "new" ]} get_problems "new");
    [vm_compute; reflexivity | discriminate].
Defined.

(** X3: the handler never takes a token back: when a config that received
    the token of an earlier run goes through the handler again after the
    token was removed from the storage, or replaced by the empty string,
    it still carries the earlier [Authorization] header. *)
Theorem onFulfilled_token_sticks
    (storage1 storage2 : Storage.t) (config : RequestConfig) (token : string) :
  Storage.getItem storage1 "accessToken" = Some token →
  token ≠ "" →
  Storage.getItem storage2 "accessToken" = None
  ∨ Storage.getItem storage2 "accessToken" = Some "" →
  onFulfilled storage2 (onFulfilled storage1 config) = onFulfilled storage1 config
  ∧ headers (onFulfilled storage2 (onFulfilled storage1 config)) !! "Authorization"
    = Some (JsString ("Bearer " +:+ token)).
Proof.
  intros Hget Hne Hgone.
  assert (Hsticks : onFulfilled storage2 (onFulfilled storage1 config)
                    = onFulfilled storage1 config).
  { rewrite onFulfilled_compose. by destruct Hgone as [-> | ->]. }
  split; [exact Hsticks |].
  rewrite Hsticks, (onFulfilled_truthy _ _ token Hget Hne). simpl.
  apply lookup_insert_eq.
Qed.

Lemma onFulfilled_token_sticks_witness :
  headers (onFulfilled ∅ (onFulfilled {[ "accessToken" := "old" ]} get_problems))
    !! "Authorization"
  = Some (JsString "Bearer old").
Proof.
  apply (onFulfilled_token_sticks {[ "accessToken" := "old" ]} ∅ get_problems "old");
    [vm_compute; reflexivity | discriminate | left; vm_compute; reflexivity].
Defined.

(** ** When and how the success handler changes a config *)

(** X4: the handler returns the config exactly as it came if and only if
    nothing is stored under ["accessToken"], or the empty string is, or the
    config already carries the [Authorization] header the stored token
    gives. *)
Theorem onFulfilled_unchanged_iff (localStorage : Storage.t) (config : RequestConfig) :
  onFulfilled localStorage config = config
  ↔ Storage.getItem localStorage "accessToken" = None
    ∨ Storage.getItem localStorage "accessToken" = Some ""
    ∨ ∃ token, Storage.getItem localStorage "accessToken" = Some token
               ∧ headers config !! "Authorization"
                 = Some (JsString ("Bearer " +:+ token)).
Proof.
  unfold onFulfilled.
  destruct (Storage.getItem localStorage "accessToken") as [[|a token] |] eqn:Hget;
    simpl ToBoolean; cbv iota.
  - split; auto.
  - rewrite set_header_fixed. split.
    + intros Hlookup. right; right. by exists (String a token).
    + intros [Hnone | [Hempty | (token' & Heq & Hlookup)]]; try discriminate.
      by injection Heq as <-.
  - split; auto.
Qed.

(** X5: the handler never removes a header and adds at most the one named
    [Authorization]: every header name of the input is one of the result,
    and every header name of the result is one of the input or is
    [Authorization]. *)
Theorem onFulfilled_header_names (localStorage : Storage.t) (config : RequestConfig) :
  dom (headers config) ⊆ dom (headers (onFulfilled localStorage config))
  ∧ dom (headers (onFulfilled localStorage config))
    ⊆ dom (headers config) ∪ {[ "Authorization" ]}.
Proof.
  destruct (onFulfilled_cases localStorage config) as [-> | [value ->]].
  - set_solver.
  - simpl. rewrite dom_insert_L. split.
    + apply union_subseteq_r.
    + by rewrite (comm_L (∪)).
Qed.

(** X6: the header identifies the token: two different non-empty tokens
    give two different [Authorization] headers, whatever the configs. *)
Theorem onFulfilled_token_injective
    (storage1 storage2 : Storage.t) (config1 config2 : RequestConfig)
    (token1 token2 : string) :
  Storage.getItem storage1 "accessToken" = Some token1 →
  token1 ≠ "" →
  Storage.getItem storage2 "accessToken" = Some token2 →
  token2 ≠ "" →
  token1 ≠ token2 →
  headers (onFulfilled storage1 config1) !! "Authorization"
  ≠ headers (onFulfilled storage2 config2) !! "Authorization".
Proof.
  intros Hget1 Hne1 Hget2 Hne2 Hdiff.
  rewrite (onFulfilled_truthy _ _ token1 Hget1 Hne1).
  rewrite (onFulfilled_truthy _ _ token2 Hget2 Hne2).
  simpl. rewrite !lookup_insert_eq. intros Heq.
  apply Hdiff. by simplify_eq.
Qed.

Lemma onFulfilled_token_injective_witness :
  headers (onFulfilled {[ "accessToken" := "old" ]} get_problems) !! "Authorization"
  ≠ headers (onFulfilled {[ "accessToken" := "new" ]} get_with_basic_auth)
      !! "Authorization".
Proof.
  apply (onFulfilled_token_injective _ _ _ _ "old" "new");
    try discriminate; vm_compute; reflexivity.
Defined.

(** ** The success handler on the heap *)

Section Heap.

Context (localStorage : Storage.t) (heap : gmap nat (gmap string HeapValue)).

(** A config has a [headers] object when its [headers] property refers to
    an object of the heap. *)
Lemma headers_of_Some (config : nat) (properties : gmap string HeapValue) :
  headers_of heap config = Some properties
  ↔ ∃ address, get_property heap config "headers" = Some (Ref address)
               ∧ heap !! address = Some properties.
Proof.
  unfold headers_of. split.
  - destruct (get_property heap config "headers") as [[v | address] |];
      try discriminate.
    intros Hobject. by exists address.
  - intros (address & -> & Hobject). exact Hobject.
Qed.

(** An assignment to the property [name] of one object leaves every other
    property of every object as it was. *)
Lemma get_property_insert (address : nat) (properties : gmap string HeapValue)
    (name : string) (value : HeapValue) (object : nat) (other : string) :
  heap !! address = Some properties →
  other ≠ name →
  get_property (<[address := <[name := value]> properties]> heap) object other
  = get_property heap object other.
Proof.
  intros Hobject Hne. unfold get_property.
  destruct (decide (object = address)) as [-> | Hother].
  - rewrite lookup_insert_eq, Hobject. simpl. by rewrite lookup_insert_ne.
  - by rewrite lookup_insert_ne.
Qed.

(** The truthy branch on a config that has a [headers] object. *)
Lemma onFulfilled_heap_truthy (config : nat) (token : string) (address : nat)
    (properties : gmap string HeapValue) :
  Storage.getItem localStorage "accessToken" = Some token →
  token ≠ "" →
  get_property heap config "headers" = Some (Ref address) →
  heap !! address = Some properties →
  onFulfilled_heap localStorage heap config
  = Normal (<[address := <["Authorization" :=
                             Prim (JsString ("Bearer " +:+ token))]> properties]> heap,
            config).
Proof.
  intros Hget Hne Hprop Hobject. unfold onFulfilled_heap, put_property.
  rewrite Hget, Hprop, Hobject. destruct token; [congruence | reflexivity].
Qed.

(** The outcomes of the handler: the heap as it was, one assignment to
    [Authorization], or a [TypeError]. *)
Lemma onFulfilled_heap_cases (config : nat) :
  (ToBoolean (Storage.getItem localStorage "accessToken") = false
   ∧ onFulfilled_heap localStorage heap config = Normal (heap, config))
  ∨ (ToBoolean (Storage.getItem localStorage "accessToken") = true
     ∧ ∃ address properties value,
         get_property heap config "headers" = Some (Ref address)
         ∧ heap !! address = Some properties
         ∧ onFulfilled_heap localStorage heap config
           = Normal (<[address := <["Authorization" := value]> properties]> heap,
                     config))
  ∨ (ToBoolean (Storage.getItem localStorage "accessToken") = true
     ∧ headers_of heap config = None
     ∧ onFulfilled_heap localStorage heap config = Throw TypeError).
Proof.
  unfold onFulfilled_heap, put_property, headers_of.
  destruct (ToBoolean _); [right | by left].
  destruct (get_property heap config "headers") as [[v | address] |]; [by right | | by right].
  destruct (heap !! address) as [properties |] eqn:Hobject; [left | by right].
  split; [reflexivity |]. exists address, properties. eexists.
  split; [reflexivity |]. split; [exact Hobject | reflexivity].
Qed.

End Heap.



(** Once the storage is read, the handler throws exactly when a non-empty
    token is stored and the [headers] property of the config refers to no
    object, and then it throws a [TypeError]. *)
Lemma onFulfilled_heap_throw_cases
    (localStorage : Storage.t) (heap : gmap nat (gmap string HeapValue))
    (reference : nat) :
  ((∃ error, onFulfilled_heap localStorage heap reference = Throw error)
   ↔ (∃ token, Storage.getItem localStorage "accessToken" = Some token ∧ token ≠ "")
     ∧ headers_of heap reference = None)
  ∧ (∀ error, onFulfilled_heap localStorage heap reference = Throw error →
       error = TypeError)
  ∧ (Storage.getItem localStorage "accessToken" = None
     ∨ Storage.getItem localStorage "accessToken" = Some "" →
     onFulfilled_heap localStorage heap reference = Normal (heap, reference)).
Proof.
  assert (Htruthy : ToBoolean (Storage.getItem localStorage "accessToken") = true
                    ↔ ∃ token, Storage.getItem localStorage "accessToken" = Some token
                               ∧ token ≠ "").
  { destruct (Storage.getItem localStorage "accessToken") as [[|a token] |]; simpl.
    - split; [discriminate | by intros (token & [= <-] & Hne)].
    - split; [by exists (String a token) | done].
    - split; [discriminate | by intros (token & [=] & _)]. }
  destruct (onFulfilled_heap_cases localStorage heap reference)
    as [(Hfalsy & Hrun) | [(Hyes & address & properties & value & Hprop & Hobject & Hrun)
                          | (Hyes & Hnone & Hrun)]];
    rewrite Hrun; (split; [split | split]).
  - by intros [error [=]].
  - intros [Htoken _]. apply Htruthy in Htoken. congruence.
  - by intros error [=].
  - reflexivity.
  - by intros [error [=]].
  - intros [_ Hnone]. unfold headers_of in Hnone. rewrite Hprop in Hnone. congruence.
  - by intros error [=].
  - intros [Hgone | Hgone]; rewrite Hgone in Hyes; discriminate.
  - intros _. split; [by apply Htruthy | exact Hnone].
  - intros _. by exists TypeError.
  - by intros error [= <-].
  - intros [Hgone | Hgone]; rewrite Hgone in Hyes; discriminate.
Qed.

(** X8: when the handler throws, the read of [localStorage] included: it
    throws exactly when evaluating [localStorage] throws, or a non-empty
    token is stored and the [headers] property of the config refers to no
    object; what it throws is the error of the read in the first case and a
    [TypeError] in the second; and when the storage can be read and holds
    no token, or the empty one, it returns the heap and the reference as
    they came, whatever [headers] is. *)
Theorem onFulfilled_ambient_throws_iff
    (localStorage : Completion Storage.t)
    (heap : gmap nat (gmap string HeapValue)) (reference : nat) :
  ((∃ error, onFulfilled_ambient localStorage heap reference = Throw error)
   ↔ (∃ error, localStorage = Throw error)
     ∨ (∃ storage token,
          localStorage = Normal storage
          ∧ Storage.getItem storage "accessToken" = Some token
          ∧ token ≠ ""
          ∧ headers_of heap reference = None))
  ∧ (∀ error, onFulfilled_ambient localStorage heap reference = Throw error →
       localStorage = Throw error
       ∨ ((∃ storage, localStorage = Normal storage) ∧ error = TypeError))
  ∧ (∀ storage, localStorage = Normal storage →
       Storage.getItem storage "accessToken" = None
       ∨ Storage.getItem storage "accessToken" = Some "" →
       onFulfilled_ambient localStorage heap reference = Normal (heap, reference)).
Proof.
  destruct localStorage as [storage | thrown]; simpl.
  - destruct (onFulfilled_heap_throw_cases storage heap reference)
      as (Hiff & Honly & Hquiet).
    split; [| split].
    + rewrite Hiff. split.
      * intros [(token & Hget & Hne) Hnone]. right. by exists storage, token.
      * intros [[error [=]] | (storage' & token & [= <-] & Hget & Hne & Hnone)].
        split; [by exists token | exact Hnone].
    + intros error Hthrow. right. split; [by exists storage | by apply Honly].
    + intros storage' [= <-]. exact Hquiet.
  - split; [| split].
    + split; [intros _; left; by exists thrown | intros _; by exists thrown].
    + intros error [= <-]. by left.
    + by intros storage [=].
Qed.

(** X9: what a call that returns leaves of the heap: the reference
    returned is the argument, no object is created or dropped, every
    property of every object other than [Authorization] is as it was, and
    an object other than the [headers] object of the config is untouched. *)
Theorem onFulfilled_heap_frame
    (localStorage : Storage.t) (heap heap' : gmap nat (gmap string HeapValue))
    (reference returned : nat) :
  onFulfilled_heap localStorage heap reference = Normal (heap', returned) →
  returned = reference
  ∧ dom heap' = dom heap
  ∧ (∀ object name, name ≠ "Authorization" →
       get_property heap' object name = get_property heap object name)
  ∧ (∀ object, get_property heap reference "headers" ≠ Some (Ref object) →
       heap' !! object = heap !! object).
Proof.
  destruct (onFulfilled_heap_cases localStorage heap reference)
    as [(_ & Hrun) | [(_ & address & properties & value & Hprop & Hobject & Hrun)
                     | (_ & _ & Hrun)]];
    rewrite Hrun; intros [= <- <-].
  - done.
  - split; [reflexivity |]. split; [| split].
    + rewrite dom_insert_L. apply subseteq_union_1_L, singleton_subseteq_l.
      by apply elem_of_dom.
    + intros object name Hne. by apply get_property_insert.
    + intros object Hne. rewrite lookup_insert_ne; [reflexivity | congruence].
Qed.

Lemma onFulfilled_heap_frame_witness :
  ∃ heap',
    onFulfilled_heap {[ "accessToken" := "t0k3n" ]} shared_headers_heap 1
    = Normal (heap', 1)
    ∧ dom heap' = dom shared_headers_heap
    ∧ heap' !! 4 = shared_headers_heap !! 4.
Proof.
  pose (heap' := <[2 := <["Authorization" := Prim (JsString "Bearer t0k3n")]>
                          {[ "Accept" := Prim (JsString "application/json") ]}]>
                   shared_headers_heap).
  assert (Hrun : onFulfilled_heap {[ "accessToken" := "t0k3n" ]} shared_headers_heap 1
                 = Normal (heap', 1)) by (vm_compute; reflexivity).
  destruct (onFulfilled_heap_frame _ _ _ _ _ Hrun) as (_ & Hdom & _ & Hother).
  exists heap'. split; [exact Hrun |]. split; [exact Hdom |].
  apply Hother. vm_compute. discriminate.
Defined.

(** X10: the assignment is in place: when two configs share one [headers]
    object and a non-empty token is stored, a call on the first config
    leaves the second one with the [Authorization] header too. *)
Theorem onFulfilled_heap_shared_headers
    (localStorage : Storage.t) (heap : gmap nat (gmap string HeapValue))
    (config1 config2 : nat) (token : string) :
  Storage.getItem localStorage "accessToken" = Some token →
  token ≠ "" →
  is_Some (headers_of heap config1) →
  get_property heap config2 "headers" = get_property heap config1 "headers" →
  ∃ heap',
    onFulfilled_heap localStorage heap config1 = Normal (heap', config1)
    ∧ headers_of heap' config2 ≫= (λ properties, properties !! "Authorization")
      = Some (Prim (JsString ("Bearer " +:+ token))).
Proof.
  intros Hget Hne [properties Hview] Hshared.
  destruct (proj1 (headers_of_Some _ _ _) Hview) as (address & Hprop & Hobject).
  eexists. split.
  - by apply (onFulfilled_heap_truthy _ _ _ token address properties).
  - unfold headers_of.
    rewrite (get_property_insert _ _ _ _ _ _ _ Hobject) by done.
    rewrite Hshared, Hprop, lookup_insert_eq. simpl. apply lookup_insert_eq.
Qed.

Lemma onFulfilled_heap_shared_headers_witness :
  ∃ heap',
    onFulfilled_heap {[ "accessToken" := "t0k3n" ]} shared_headers_heap 1
    = Normal (heap', 1)
    ∧ headers_of heap' 3 ≫= (λ properties, properties !! "Authorization")
      = Some (Prim (JsString "Bearer t0k3n")).
Proof.
  apply (onFulfilled_heap_shared_headers {[ "accessToken" := "t0k3n" ]}
           shared_headers_heap 1 3 "t0k3n").
  - vm_compute; reflexivity.
  - discriminate.
  - eexists. vm_compute; reflexivity.
  - vm_compute; reflexivity.
Defined.
